(** * BTOON Go binding (package [btoon], file [btoon.go])

    A shallow embedding of the Go binding of the BTOON serialization
    format.  The binding consists of two wrappers, [Encode] and [Decode],
    written over a handful of helper functions that sit on the CGO seam,
    and of two streaming objects, [StreamEncoder] and [StreamDecoder].

    The wrappers are embedded over an interface ([Helpers]) holding the
    seam functions, so that facts about the wrappers' own control flow can
    be stated for every implementation of the seam.  The bodies the
    repository gives to the seam functions are the instance [placeholder].

    The only effect of the file is [C.free], reached through
    [freeEncodedData]; it is modelled in a state monad over the C heap. *)

From Stdlib Require Import ZArith NArith List String Bool Lia.
From ExtLib Require Import Structures.Monad Structures.MonadState.
From ExtLib Require Import Data.Monads.StateMonad.
Import ListNotations.
Import MonadNotation.
Local Open Scope monad_scope.
Local Open Scope string_scope.
Set Warnings "-register-all".

(** ** Data *)

(** [[]byte]: only [len] is ever taken of a slice in this file, so the nil
    slice and the empty slice are both the empty list. *)
Definition bytes := list Byte.byte.

(** [interface{}]: the dynamic values the tests and examples pass around.
    A [float64] is kept as its IEEE-754 bit pattern.  Go's untyped [nil]
    is [VNil]. *)
Inductive Value : Type :=
| VNil
| VBool (b : bool)
| VInt (n : Z)
| VFloat (bits : Z)
| VString (s : string)
| VBytes (b : bytes)
| VArray (elems : list Value)
| VMap (entries : list (string * Value)).

(** [error]: [nil] is [None]; [errors.New msg] carries its message. *)
Definition error := option string.
Definition errors_New (msg : string) : error := Some msg.

(** [type CompressionAlgorithm int] with its [iota] constants. *)
Definition CompressionAlgorithm := Z.
Definition CompressionNone : CompressionAlgorithm := 0%Z.
Definition CompressionZlib : CompressionAlgorithm := 1%Z.
Definition CompressionLZ4 : CompressionAlgorithm := 2%Z.
Definition CompressionZSTD : CompressionAlgorithm := 3%Z.
Definition CompressionBrotli : CompressionAlgorithm := 4%Z.
Definition CompressionSnappy : CompressionAlgorithm := 5%Z.

Record EncodeOptions := {
  Compress : bool;
  Algorithm : CompressionAlgorithm;
  Level : Z;
  AutoTabular : bool
}.

Record DecodeOptions := {
  Decompress : bool
}.

(** [unsafe.Pointer]: an address, [0] being [nil]. *)
Definition Pointer := N.
Definition nil_ptr : Pointer := 0%N.
Definition is_nil (p : Pointer) : bool := N.eqb p 0%N.

(** The C heap, as the list of live blocks.  [C.free] drops a block.
    C leaves [free] of a block that is not live undefined; the list is
    left as it is there, and what is said below of the blocks freed is
    said of seams that hand out live blocks ([allocating]), where every
    block freed is live when it is freed. *)
Definition CHeap := list N.
Definition M := state CHeap.

Definition C_free (p : Pointer) : M unit :=
  modify (remove N.eq_dec p) ;; ret tt.

(** ** Helper functions for CGO interaction *)

Class Helpers := {
  encodeValue : Value -> M Pointer;
  decodeData : Pointer -> M (Value * error);
  dataToBytes : Pointer -> M bytes;
  bytesToData : bytes -> M Pointer;
  compressData : Pointer -> CompressionAlgorithm -> Z -> M Pointer;
  decompressData : Pointer -> M Pointer
}.

Definition freeEncodedData (data : Pointer) : M unit :=
  if is_nil data then ret tt else C_free data.

(** [defer cleanup] followed by [body]: the deferred call runs when the
    function returns, after the returned expressions are evaluated. *)
Definition defer {A} (cleanup : M unit) (body : M A) : M A :=
  r <- body ;; cleanup ;; ret r.

Section Wrappers.
Context {H : Helpers}.

(** [func Encode(v interface{}, opts ...EncodeOptions) ([]byte, error)] *)
Definition Encode (v : Value) (opts : list EncodeOptions)
  : M (bytes * error) :=
  let opt :=
    match opts with
    | o :: _ => o
    | [] => {| Compress := false; Algorithm := CompressionNone;
               Level := 6; AutoTabular := true |}
    end in
  data <- encodeValue v ;;
  if is_nil data then ret ([], errors_New "failed to encode value")
  else
    defer (freeEncodedData data)
      (if Compress opt then
         data' <- compressData data (Algorithm opt) (Level opt) ;;
         if is_nil data' then ret ([], errors_New "compression failed")
         else
           defer (freeEncodedData data')
             (out <- dataToBytes data' ;; ret (out, None))
       else
         out <- dataToBytes data ;; ret (out, None)).

(** [func Decode(data []byte, opts ...DecodeOptions) (interface{}, error)] *)
Definition Decode (data : bytes) (opts : list DecodeOptions)
  : M (Value * error) :=
  if Nat.eqb (List.length data) 0 then ret (VNil, errors_New "empty data")
  else
    let opt :=
      match opts with
      | o :: _ => o
      | [] => {| Decompress := false |}
      end in
    cdata <- bytesToData data ;;
    if is_nil cdata then
      ret (VNil, errors_New "failed to create data structure")
    else
      defer (freeEncodedData cdata)
        (if Decompress opt then
           cdata' <- decompressData cdata ;;
           if is_nil cdata' then ret (VNil, errors_New "decompression failed")
           else defer (freeEncodedData cdata') (decodeData cdata')
         else decodeData cdata).

(** The way the tests chain the two calls: [Encode], [require.NoError],
    then [Decode] on the bytes obtained. *)
Definition encode_then_decode (v : Value) (eopts : list EncodeOptions)
    (dopts : list DecodeOptions) : M (Value * error) :=
  r <- Encode v eopts ;;
  match snd r with
  | Some e => ret (VNil, Some e)
  | None => Decode (fst r) dopts
  end.

End Wrappers.

(** The bodies of the seam functions in [btoon.go]: every one of them
    returns [nil]. *)
#[export] Instance placeholder : Helpers := {
  encodeValue _ := ret nil_ptr;
  decodeData _ := ret (VNil, None);
  dataToBytes _ := ret [];
  bytesToData _ := ret nil_ptr;
  compressData _ _ _ := ret nil_ptr;
  decompressData _ := ret nil_ptr
}.

(** ** Streaming

    The methods take a pointer receiver; they are embedded by state
    passing: each returns its results together with the receiver after the
    call. *)

Module StreamEncoder.

Record t := { encoder : Pointer }.

(** [func NewStreamEncoder() *StreamEncoder] *)
Definition New : t := {| encoder := nil_ptr |}.

(** [func (s *StreamEncoder) Encode(v interface{}) error] *)
Definition Encode (s : t) (v : Value) : error * t := (None, s).

(** [func (s *StreamEncoder) Flush() ([]byte, error)] *)
Definition Flush (s : t) : (bytes * error) * t := (([], None), s).

(** [func (s *StreamEncoder) Close() error] *)
Definition Close (s : t) : error * t := (None, s).

End StreamEncoder.

Module StreamDecoder.

Record t := { decoder : Pointer }.

(** [func NewStreamDecoder(data []byte) *StreamDecoder] *)
Definition New (data : bytes) : t := {| decoder := nil_ptr |}.

(** [func (s *StreamDecoder) Decode() (interface{}, error)] *)
Definition Decode (s : t) : (Value * error) * t := ((VNil, None), s).

(** [func (s *StreamDecoder) Close() error] *)
Definition Close (s : t) : error * t := (None, s).

End StreamDecoder.

(** ** Call sequences

    The sequences of calls the properties below speak of, written the way
    [TestStreaming] drives the two objects. *)

(** [for ... { err := encoder.Encode(v) }]: the errors returned, in order,
    and the encoder after the last call. *)
Fixpoint encode_all (s : StreamEncoder.t) (vs : list Value)
  : list error * StreamEncoder.t :=
  match vs with
  | [] => ([], s)
  | v :: vs' =>
      let (e, s1) := StreamEncoder.Encode s v in
      let (es, s2) := encode_all s1 vs' in
      (e :: es, s2)
  end.

(** [for { obj, err := decoder.Decode(); if err != nil { break }; ... }],
    cut after [fuel] iterations.  The second component tells whether the
    loop left through [break]. *)
Fixpoint drain (fuel : nat) (d : StreamDecoder.t) : list Value * bool :=
  match fuel with
  | O => ([], false)
  | S fuel' =>
      match StreamDecoder.Decode d with
      | ((_, Some _), _) => ([], true)
      | ((obj, None), d') =>
          let (objs, stopped) := drain fuel' d' in (obj :: objs, stopped)
      end
  end.

(** [Close] called [n] times in a row. *)
Fixpoint encoder_close_n (n : nat) (s : StreamEncoder.t)
  : list error * StreamEncoder.t :=
  match n with
  | O => ([], s)
  | S n' =>
      let (e, s1) := StreamEncoder.Close s in
      let (es, s2) := encoder_close_n n' s1 in
      (e :: es, s2)
  end.

Fixpoint decoder_close_n (n : nat) (d : StreamDecoder.t)
  : list error * StreamDecoder.t :=
  match n with
  | O => ([], d)
  | S n' =>
      let (e, d1) := StreamDecoder.Close d in
      let (es, d2) := decoder_close_n n' d1 in
      (e :: es, d2)
  end.

(** An operation failed when its error is not [nil]. *)
Definition failed (e : error) : Prop := exists msg, e = Some msg.

(** ** Tabular candidates (section 4.3 of the specification)

    The arrays the tabular property ranges over: non-empty, every element
    a Map, and every record carrying every key of the column union. *)

Definition is_map (v : Value) : bool :=
  match v with VMap _ => true | _ => false end.

Definition record_keys (v : Value) : list string :=
  match v with VMap entries => map fst entries | _ => [] end.

Definition column_union (rows : list Value) : list string :=
  nodup string_dec (flat_map record_keys rows).

Definition has_key (r : Value) (k : string) : bool :=
  existsb (String.eqb k) (record_keys r).

Definition no_absent_key (rows : list Value) : bool :=
  forallb (fun r => forallb (has_key r) (column_union rows)) rows.

Definition tabular_candidate (a : Value) : bool :=
  match a with
  | VArray (r :: rows) => forallb is_map (r :: rows) && no_absent_key (r :: rows)
  | _ => false
  end.

(** ** Heap independence

    A computation whose result does not depend on the C heap it starts
    from. *)

Definition heap_independent {A} (c : M A) : Prop :=
  forall w1 w2 : CHeap, fst (runState c w1) = fst (runState c w2).

(** The seam functions all have heap-independent results. *)
Record pure_helpers (H : Helpers) : Prop := {
  pure_encodeValue : forall v, heap_independent (encodeValue v);
  pure_decodeData : forall p, heap_independent (decodeData p);
  pure_dataToBytes : forall p, heap_independent (dataToBytes p);
  pure_bytesToData : forall b, heap_independent (bytesToData b);
  pure_compressData : forall p a l, heap_independent (compressData p a l);
  pure_decompressData : forall p, heap_independent (decompressData p)
}.

(** ** Inputs taken from the tests

    [TestStreaming] encodes ten records of this shape. *)
Definition stream_record (i : Z) : Value :=
  VMap [("index", VInt i); ("data", VString "test")].

(** [TestCompression]: the options of the compressed call, and the options
    of the call that decodes it. *)
Definition zlib6 : EncodeOptions :=
  {| Compress := true; Algorithm := CompressionZlib; Level := 6;
     AutoTabular := false |}.

Definition inflate : DecodeOptions := {| Decompress := true |}.

(** Two records over the same columns, and the two settings of the
    tabular option. *)
Definition people : Value :=
  VArray [ VMap [("id", VInt 1); ("name", VString "Alice")];
           VMap [("id", VInt 2); ("name", VString "Bob")] ].

Definition tabular_on : EncodeOptions :=
  {| Compress := false; Algorithm := CompressionNone; Level := 6;
     AutoTabular := true |}.

Definition tabular_off : EncodeOptions :=
  {| Compress := false; Algorithm := CompressionNone; Level := 6;
     AutoTabular := false |}.

(** A stream holding a length prefix of five and no payload. *)
Definition truncated_frame : bytes := [Byte.x05].

(** ** The options a call works with

    [opt := defaults; if len(opts) > 0 { opt = opts[0] }], as written at
    the head of [Encode] and of [Decode]. *)
Definition EncodeOptions_of (opts : list EncodeOptions) : EncodeOptions :=
  match opts with
  | o :: _ => o
  | [] => {| Compress := false; Algorithm := CompressionNone;
             Level := 6; AutoTabular := true |}
  end.

Definition DecodeOptions_of (opts : list DecodeOptions) : DecodeOptions :=
  match opts with
  | o :: _ => o
  | [] => {| Decompress := false |}
  end.

(** ** Seams that allocate

    What a working seam does to the C heap: a function that returns a
    buffer either fails with [nil] and leaves the heap alone, or returns a
    block that was not live and is live afterwards; a function that reads
    a buffer leaves the heap alone. *)

Definition allocates (c : M Pointer) : Prop :=
  forall w : CHeap,
    (is_nil (fst (runState c w)) = true /\ snd (runState c w) = w) \/
    (is_nil (fst (runState c w)) = false /\
     ~ In (fst (runState c w)) w /\
     snd (runState c w) = fst (runState c w) :: w).

Definition reads_only {A} (c : M A) : Prop :=
  forall w : CHeap, snd (runState c w) = w.

Record allocating (H : Helpers) : Prop := {
  alloc_encodeValue : forall v, allocates (encodeValue v);
  alloc_bytesToData : forall b, allocates (bytesToData b);
  alloc_compressData : forall p a l, allocates (compressData p a l);
  alloc_decompressData : forall p, allocates (decompressData p);
  reads_dataToBytes : forall p, reads_only (dataToBytes p);
  reads_decodeData : forall p, reads_only (decodeData p)
}.

(** A seam of that kind, to run the wrappers on: buffers are handed out
    at the address after the highest live one; every buffer reads as one
    byte, and decoding a buffer gives its address. *)
Definition fresh_block (w : CHeap) : Pointer :=
  N.succ (fold_right N.max 0%N w).

Definition C_malloc : M Pointer :=
  w <- get ;;
  put (fresh_block w :: w) ;;
  ret (fresh_block w).

Definition bump : Helpers := {|
  encodeValue _ := C_malloc;
  decodeData p := ret (VInt (Z.of_N p), None);
  dataToBytes p := ret [Byte.x2a];
  bytesToData _ := C_malloc;
  compressData _ _ _ := C_malloc;
  decompressData _ := C_malloc
|}.

(** A seam with one function replaced. *)
Definition with_compressData (H : Helpers)
    (c : Pointer -> CompressionAlgorithm -> Z -> M Pointer) : Helpers := {|
  encodeValue := @encodeValue H;
  decodeData := @decodeData H;
  dataToBytes := @dataToBytes H;
  bytesToData := @bytesToData H;
  compressData := c;
  decompressData := @decompressData H
|}.

Definition with_decompressData (H : Helpers)
    (c : Pointer -> M Pointer) : Helpers := {|
  encodeValue := @encodeValue H;
  decodeData := @decodeData H;
  dataToBytes := @dataToBytes H;
  bytesToData := @bytesToData H;
  compressData := @compressData H;
  decompressData := c
|}.

(** ** Arbitrary use of the streaming objects

    The calls a client can make on an encoder and on a decoder, and a
    run of any sequence of them: what each call returned, in order, and
    the object after the last call. *)

Inductive encoder_call : Type :=
| CallEncode (v : Value)
| CallFlush
| CallEncoderClose.

Inductive decoder_call : Type :=
| CallDecode
| CallDecoderClose.

(** What a call returned: the bytes or the value, for the calls that
    return one, and the error. *)
Definition encoder_step (s : StreamEncoder.t) (c : encoder_call)
  : (option bytes * error) * StreamEncoder.t :=
  match c with
  | CallEncode v =>
      let (e, s') := StreamEncoder.Encode s v in ((None, e), s')
  | CallFlush =>
      let (r, s') := StreamEncoder.Flush s in ((Some (fst r), snd r), s')
  | CallEncoderClose =>
      let (e, s') := StreamEncoder.Close s in ((None, e), s')
  end.

Definition decoder_step (d : StreamDecoder.t) (c : decoder_call)
  : (option Value * error) * StreamDecoder.t :=
  match c with
  | CallDecode =>
      let (r, d') := StreamDecoder.Decode d in ((Some (fst r), snd r), d')
  | CallDecoderClose =>
      let (e, d') := StreamDecoder.Close d in ((None, e), d')
  end.

Fixpoint encoder_run (s : StreamEncoder.t) (cs : list encoder_call)
  : list (option bytes * error) * StreamEncoder.t :=
  match cs with
  | [] => ([], s)
  | c :: cs' =>
      let (r, s1) := encoder_step s c in
      let (rs, s2) := encoder_run s1 cs' in
      (r :: rs, s2)
  end.

Fixpoint decoder_run (d : StreamDecoder.t) (cs : list decoder_call)
  : list (option Value * error) * StreamDecoder.t :=
  match cs with
  | [] => ([], d)
  | c :: cs' =>
      let (r, d1) := decoder_step d c in
      let (rs, d2) := decoder_run d1 cs' in
      (r :: rs, d2)
  end.

(** * Properties *)

(** ** The state monad over the C heap *)

Lemma run_bind {A B} (c : M A) (f : A -> M B) (w : CHeap) :
  runState (bind c f) w =
  runState (f (fst (runState c w))) (snd (runState c w)).
Proof. cbn. destruct (runState c w); reflexivity. Qed.

Lemma run_ret {A} (x : A) (w : CHeap) : runState (ret x : M A) w = (x, w).
Proof. reflexivity. Qed.

Lemma heap_independent_ret {A} (x : A) : heap_independent (ret x : M A).
Proof. intros w1 w2; reflexivity. Qed.

Lemma heap_independent_bind {A B} (c : M A) (f : A -> M B) :
  heap_independent c ->
  (forall a, heap_independent (f a)) ->
  heap_independent (bind c f).
Proof.
  intros Hc Hf w1 w2.
  rewrite !run_bind, (Hc w1 w2).
  apply Hf.
Qed.

Lemma heap_independent_free (p : Pointer) :
  heap_independent (freeEncodedData p).
Proof.
  intros w1 w2. unfold freeEncodedData.
  destruct (is_nil p); reflexivity.
Qed.

Lemma heap_independent_defer {A} (cleanup : M unit) (body : M A) :
  heap_independent cleanup ->
  heap_independent body ->
  heap_independent (defer cleanup body).
Proof.
  intros Hc Hb. unfold defer.
  apply heap_independent_bind; [exact Hb | intro r].
  apply heap_independent_bind; [exact Hc | intro u].
  apply heap_independent_ret.
Qed.

Ltac heapind :=
  repeat first
    [ apply heap_independent_ret
    | apply heap_independent_free
    | apply heap_independent_defer
    | apply heap_independent_bind; [ | intro ]
    | match goal with
      | |- heap_independent (if ?b then _ else _) => destruct b
      end ].

(** The wrappers add no dependence on the heap of their own: over
    heap-independent seam functions their results are heap-independent,
    the deferred [C.free] calls notwithstanding. *)
Lemma Encode_heap_independent (H : Helpers) (v : Value)
    (opts : list EncodeOptions) :
  pure_helpers H -> heap_independent (Encode v opts).
Proof.
  intros [He _ Hb _ Hc _]. unfold Encode.
  apply heap_independent_bind; [apply He | intro data].
  heapind; auto.
Qed.

Lemma Decode_heap_independent (H : Helpers) (data : bytes)
    (opts : list DecodeOptions) :
  pure_helpers H -> heap_independent (Decode data opts).
Proof.
  intros [_ Hd _ Hb _ Hx]. unfold Decode.
  destruct (Nat.eqb (List.length data) 0); [apply heap_independent_ret |].
  apply heap_independent_bind; [apply Hb | intro cdata].
  heapind; auto.
Qed.

Lemma placeholder_pure : pure_helpers placeholder.
Proof. constructor; intros; intros w1 w2; reflexivity. Qed.

(** ** What the wrappers compute over the placeholder seam *)

Lemma Encode_placeholder (v : Value) (opts : list EncodeOptions) (w : CHeap) :
  runState (Encode (H := placeholder) v opts) w =
  (([], errors_New "failed to encode value"), w).
Proof. reflexivity. Qed.

Lemma Decode_placeholder_nonempty (b : Byte.byte) (data : bytes)
    (opts : list DecodeOptions) (w : CHeap) :
  runState (Decode (H := placeholder) (b :: data) opts) w =
  ((VNil, errors_New "failed to create data structure"), w).
Proof. reflexivity. Qed.

Lemma Decode_empty {H : Helpers} (opts : list DecodeOptions) :
  Decode [] opts = ret (VNil, errors_New "empty data").
Proof. reflexivity. Qed.

Lemma encode_then_decode_placeholder (v : Value) (eopts : list EncodeOptions)
    (dopts : list DecodeOptions) (w : CHeap) :
  runState (encode_then_decode (H := placeholder) v eopts dopts) w =
  ((VNil, errors_New "failed to encode value"), w).
Proof. reflexivity. Qed.

(** [Encode] reads [Compress], [Algorithm] and [Level] of its options and
    nothing else. *)
Lemma Encode_options_read {H : Helpers} (v : Value) (o1 o2 : EncodeOptions) :
  Compress o1 = Compress o2 ->
  Algorithm o1 = Algorithm o2 ->
  Level o1 = Level o2 ->
  Encode v [o1] = Encode v [o2].
Proof.
  intros Hc Ha Hl. unfold Encode. rewrite Hc, Ha, Hl. reflexivity.
Qed.

(** ** What the streaming objects compute *)

Lemma encode_all_eq (vs : list Value) (s : StreamEncoder.t) :
  encode_all s vs = (repeat None (List.length vs), s).
Proof.
  induction vs as [| v vs IH]; cbn [encode_all List.length repeat].
  - reflexivity.
  - unfold StreamEncoder.Encode. rewrite IH. reflexivity.
Qed.

Lemma drain_eq (fuel : nat) (d : StreamDecoder.t) :
  drain fuel d = (repeat VNil fuel, false).
Proof.
  induction fuel as [| fuel IH]; cbn [drain repeat].
  - reflexivity.
  - unfold StreamDecoder.Decode. rewrite IH. reflexivity.
Qed.

Lemma encoder_close_n_eq (n : nat) (s : StreamEncoder.t) :
  encoder_close_n n s = (repeat None n, s).
Proof.
  induction n as [| n IH]; cbn [encoder_close_n repeat].
  - reflexivity.
  - unfold StreamEncoder.Close. rewrite IH. reflexivity.
Qed.

Lemma decoder_close_n_eq (n : nat) (d : StreamDecoder.t) :
  decoder_close_n n d = (repeat None n, d).
Proof.
  induction n as [| n IH]; cbn [decoder_close_n repeat].
  - reflexivity.
  - unfold StreamDecoder.Close. rewrite IH. reflexivity.
Qed.

Lemma not_failed_nil : ~ failed None.
Proof. intros [msg Hmsg]; discriminate Hmsg. Qed.

(** ** Round trips *)

(** C1. Over the seam as the repository has it, [Encode] fails on every
    value with "failed to encode value" and leaves the heap untouched, so
    the round trip of the tests stops at its first step: no value is ever
    encoded, hence none is returned by [Decode]. *)
Theorem roundtrip_stops_at_Encode (v : Value) (eopts : list EncodeOptions)
    (dopts : list DecodeOptions) (w : CHeap) :
  runState (Encode (H := placeholder) v eopts) w =
    (([], Some "failed to encode value"), w) /\
  runState (encode_then_decode (H := placeholder) v eopts dopts) w =
    ((VNil, Some "failed to encode value"), w).
Proof.
  split.
  - apply Encode_placeholder.
  - apply encode_then_decode_placeholder.
Qed.

(** C2. With compression requested, whatever the algorithm and the level,
    [Encode] fails before [compressData] is reached, and the compressed
    round trip returns the error instead of the value. *)
Theorem compressed_roundtrip_stops_at_Encode (v : Value)
    (a : CompressionAlgorithm) (l : Z) (t : bool) (w : CHeap) :
  runState
    (encode_then_decode (H := placeholder) v
       [{| Compress := true; Algorithm := a; Level := l; AutoTabular := t |}]
       [{| Decompress := true |}]) w =
    ((VNil, Some "failed to encode value"), w).
Proof. apply encode_then_decode_placeholder. Qed.

(** C7. On an array of the kind the tabular property ranges over, here
    two records over the same columns, neither encoding yields bytes: with
    the tabular option on and with it off, whatever the other options,
    [Encode] fails with "failed to encode value", and the round trip of
    the tests returns that error and no value.  There are no two decoded
    values to compare. *)
Theorem tabular_encodings_both_fail (c : bool) (al : CompressionAlgorithm)
    (l : Z) (dopts : list DecodeOptions) (w : CHeap) :
  tabular_candidate people = true /\
  runState
    (Encode (H := placeholder) people
       [{| Compress := c; Algorithm := al; Level := l;
           AutoTabular := true |}]) w =
    (([], Some "failed to encode value"), w) /\
  runState
    (Encode (H := placeholder) people
       [{| Compress := c; Algorithm := al; Level := l;
           AutoTabular := false |}]) w =
    (([], Some "failed to encode value"), w) /\
  runState
    (encode_then_decode (H := placeholder) people
       [{| Compress := c; Algorithm := al; Level := l;
           AutoTabular := true |}] dopts) w =
    ((VNil, Some "failed to encode value"), w) /\
  runState
    (encode_then_decode (H := placeholder) people
       [{| Compress := c; Algorithm := al; Level := l;
           AutoTabular := false |}] dopts) w =
    ((VNil, Some "failed to encode value"), w).
Proof.
  split; [reflexivity |].
  split; [apply Encode_placeholder |].
  split; [apply Encode_placeholder |].
  split; apply encode_then_decode_placeholder.
Qed.

(** ** Purity *)

(** C8. [Encode] and [Decode] are functions of their arguments alone: run
    from any two C heaps on the same value or bytes and the same options
    they return the same bytes or value and the same error, and they leave
    the heap they ran from as it was. *)
Theorem Encode_Decode_pure (v : Value) (eopts : list EncodeOptions)
    (data : bytes) (dopts : list DecodeOptions) (w1 w2 : CHeap) :
  fst (runState (Encode (H := placeholder) v eopts) w1) =
    fst (runState (Encode (H := placeholder) v eopts) w2) /\
  fst (runState (Decode (H := placeholder) data dopts) w1) =
    fst (runState (Decode (H := placeholder) data dopts) w2) /\
  snd (runState (Encode (H := placeholder) v eopts) w1) = w1 /\
  snd (runState (Decode (H := placeholder) data dopts) w1) = w1.
Proof.
  split; [| split; [| split]].
  - apply Encode_heap_independent, placeholder_pure.
  - apply Decode_heap_independent, placeholder_pure.
  - rewrite Encode_placeholder. reflexivity.
  - destruct data as [| b data].
    + rewrite Decode_empty. reflexivity.
    + rewrite Decode_placeholder_nonempty. reflexivity.
Qed.

(** ** Options and the empty input *)

(** C9. On an empty byte slice, whatever the options (none included),
    [Decode] returns the nil value and the error "empty data".  It does so
    over every implementation of the seam and without touching the heap:
    no conversion, decompression or decoding takes part. *)
Theorem Decode_empty_data {H : Helpers} (opts : list DecodeOptions)
    (w : CHeap) :
  Decode [] opts = ret (VNil, Some "empty data") /\
  runState (Decode [] opts) w = ((VNil, Some "empty data"), w) /\
  failed (snd (fst (runState (Decode [] opts) w))).
Proof.
  split; [reflexivity | split; [reflexivity |]].
  exists "empty data". reflexivity.
Qed.

(** C10. Without options [Encode] is [Encode] with
    [{Compress: false, AutoTabular: true, Level: 6}]; with options, it is
    [Encode] with the first of them alone.  Both hold over every
    implementation of the seam.  The options passed are taken whole: a
    [Level] of 0 in them reaches [compressData] as 0 and not as the default
    6, as a seam whose [compressData] answers by the level shows. *)
Theorem Encode_options_defaulting {H : Helpers} (v : Value) :
  Encode v [] =
    Encode v [{| Compress := false; Algorithm := CompressionNone;
                 Level := 6; AutoTabular := true |}] /\
  (forall (o : EncodeOptions) (rest : list EncodeOptions),
     Encode v (o :: rest) = Encode v [o]) /\
  (exists H' : Helpers,
     Encode (H := H') v
       [{| Compress := true; Algorithm := CompressionNone;
           Level := 0; AutoTabular := false |}] <>
     Encode (H := H') v
       [{| Compress := true; Algorithm := CompressionNone;
           Level := 6; AutoTabular := false |}]).
Proof.
  split; [reflexivity | split; [reflexivity |]].
  exists {| encodeValue _ := ret 1%N;
            decodeData _ := ret (VNil, None);
            dataToBytes _ := ret [];
            bytesToData _ := ret nil_ptr;
            compressData _ _ l := ret (Z.to_N l);
            decompressData _ := ret nil_ptr |}.
  intro Heq.
  apply (f_equal (fun c => snd (fst (runState c [])))) in Heq.
  discriminate Heq.
Qed.

(** ** Streaming *)

(** C3. Whatever values are encoded, every [Encode] returns nil, [Flush]
    returns no bytes and no error, and a decoder made from those bytes
    returns the nil value with a nil error at every call: the loop that
    reads the stream collects nil values only and never meets the error
    that would end it. *)
Theorem stream_decodes_nil_forever (vs : list Value) (fuel : nat) :
  let (errs, s1) := encode_all StreamEncoder.New vs in
  let (flushed, s2) := StreamEncoder.Flush s1 in
  errs = repeat None (List.length vs) /\
  flushed = ([], None) /\
  drain fuel (StreamDecoder.New (fst flushed)) = (repeat VNil fuel, false).
Proof.
  rewrite encode_all_eq. cbn [StreamEncoder.Flush].
  split; [reflexivity | split; [reflexivity |]].
  apply drain_eq.
Qed.

(** C6. [StreamDecoder.Decode] hands back the nil value together with a
    nil error, whatever bytes the decoder was made from; so it does on a
    truncated frame and on an empty stream, where a reader of the stream
    waits for an error. *)
Theorem stream_Decode_nil_value_nil_error (data : bytes) :
  fst (StreamDecoder.Decode (StreamDecoder.New data)) = (VNil, None) /\
  fst (StreamDecoder.Decode (StreamDecoder.New truncated_frame)) = (VNil, None) /\
  fst (StreamDecoder.Decode (StreamDecoder.New [])) = (VNil, None).
Proof. split; [| split]; reflexivity. Qed.

(** On a fresh encoder that has been closed, [Encode] does not fail. *)
Lemma Encode_after_Close_not_failed :
  ~ failed
      (fst (StreamEncoder.Encode
              (snd (StreamEncoder.Close StreamEncoder.New)) (VBool true))).
Proof. apply not_failed_nil. Qed.

(** C4. [Close] records nothing and [Encode] checks nothing: on an encoder
    on which [Close] has been called, every later call to [Encode] returns
    a nil error, none fails, and the encoder is what it was before
    [Close]. *)
Theorem Encode_after_Close_accepted (s : StreamEncoder.t) (vs : list Value) :
  encode_all (snd (StreamEncoder.Close s)) vs =
    (repeat None (List.length vs), s) /\
  Forall (fun e => ~ failed e)
    (fst (encode_all (snd (StreamEncoder.Close s)) vs)).
Proof.
  cbn [StreamEncoder.Close snd]. rewrite encode_all_eq.
  split; [reflexivity |].
  cbn [fst]. induction (List.length vs) as [| n IH]; cbn [repeat].
  - constructor.
  - constructor; [apply not_failed_nil | exact IH].
Qed.

(** After [Close], [Decode] on a decoder and [Flush] on an encoder do not
    fail. *)
Lemma operations_after_Close_not_failed :
  ~ failed
      (snd (fst (StreamDecoder.Decode
                   (snd (StreamDecoder.Close (StreamDecoder.New [])))))) /\
  ~ failed
      (snd (fst (StreamEncoder.Flush
                   (snd (StreamEncoder.Close StreamEncoder.New))))).
Proof. split; apply not_failed_nil. Qed.

(** C5. [Close] returns nil however many times it is called, and it
    records nothing: the instance is left as it was, so that an operation
    called after [Close] is not refused and returns what it returns on the
    instance before [Close]. *)
Theorem Close_idempotent_and_transparent (n : nat) (s : StreamEncoder.t)
    (d : StreamDecoder.t) :
  encoder_close_n n s = (repeat None n, s) /\
  decoder_close_n n d = (repeat None n, d) /\
  (forall v, StreamEncoder.Encode (snd (encoder_close_n n s)) v =
             StreamEncoder.Encode s v) /\
  StreamEncoder.Flush (snd (encoder_close_n n s)) = StreamEncoder.Flush s /\
  StreamDecoder.Decode (snd (decoder_close_n n d)) = StreamDecoder.Decode d.
Proof.
  rewrite encoder_close_n_eq, decoder_close_n_eq. cbn [snd].
  split; [| split; [| split; [| split]]]; reflexivity.
Qed.

(** * Further properties of the binding *)

(** ** Running the wrappers step by step *)

Lemma run_free (p : Pointer) (w : CHeap) :
  runState (freeEncodedData p) w =
  (tt, if is_nil p then w else remove N.eq_dec p w).
Proof. unfold freeEncodedData. destruct (is_nil p); reflexivity. Qed.

Lemma run_defer {A} (cleanup : M unit) (body : M A) (w : CHeap) :
  runState (defer cleanup body) w =
  (fst (runState body w), snd (runState cleanup (snd (runState body w)))).
Proof.
  unfold defer. rewrite !run_bind, run_ret. reflexivity.
Qed.

Lemma run_if {A} (b : bool) (c1 c2 : M A) (w : CHeap) :
  runState (if b then c1 else c2) w =
  if b then runState c1 w else runState c2 w.
Proof. destruct b; reflexivity. Qed.

(** [Encode], call by call: the heap each seam function runs in and the
    frees that follow it. *)
Lemma Encode_run {H : Helpers} (v : Value) (opts : list EncodeOptions)
    (w : CHeap) :
  let o := EncodeOptions_of opts in
  let r1 := runState (encodeValue v) w in
  let r2 := runState (compressData (fst r1) (Algorithm o) (Level o)) (snd r1) in
  runState (Encode v opts) w =
    if is_nil (fst r1) then
      (([], Some "failed to encode value"), snd r1)
    else if Compress o then
      if is_nil (fst r2) then
        (([], Some "compression failed"),
         remove N.eq_dec (fst r1) (snd r2))
      else
        let r3 := runState (dataToBytes (fst r2)) (snd r2) in
        ((fst r3, None),
         remove N.eq_dec (fst r1) (remove N.eq_dec (fst r2) (snd r3)))
    else
      let r3 := runState (dataToBytes (fst r1)) (snd r1) in
      ((fst r3, None), remove N.eq_dec (fst r1) (snd r3)).
Proof.
  intros o r1 r2. unfold Encode. fold (EncodeOptions_of opts). fold o.
  rewrite run_bind. fold r1. rewrite run_if.
  destruct (is_nil (fst r1)) eqn:Hp; [reflexivity |].
  rewrite run_defer, run_free, Hp, run_if.
  destruct (Compress o).
  - rewrite run_bind. fold r2. rewrite run_if.
    destruct (is_nil (fst r2)) eqn:Hq; [reflexivity |].
    rewrite run_defer, run_free, Hq, run_bind, run_ret. reflexivity.
  - rewrite run_bind, run_ret. reflexivity.
Qed.

(** [Decode], call by call. *)
Lemma Decode_run {H : Helpers} (b : Byte.byte) (data : bytes)
    (opts : list DecodeOptions) (w : CHeap) :
  let o := DecodeOptions_of opts in
  let r1 := runState (bytesToData (b :: data)) w in
  let r2 := runState (decompressData (fst r1)) (snd r1) in
  runState (Decode (b :: data) opts) w =
    if is_nil (fst r1) then
      ((VNil, Some "failed to create data structure"), snd r1)
    else if Decompress o then
      if is_nil (fst r2) then
        ((VNil, Some "decompression failed"),
         remove N.eq_dec (fst r1) (snd r2))
      else
        let r3 := runState (decodeData (fst r2)) (snd r2) in
        (fst r3,
         remove N.eq_dec (fst r1) (remove N.eq_dec (fst r2) (snd r3)))
    else
      let r3 := runState (decodeData (fst r1)) (snd r1) in
      (fst r3, remove N.eq_dec (fst r1) (snd r3)).
Proof.
  intros o r1 r2. unfold Decode. cbn [List.length Nat.eqb].
  fold (DecodeOptions_of opts). fold o.
  rewrite run_bind. fold r1. rewrite run_if.
  destruct (is_nil (fst r1)) eqn:Hp; [reflexivity |].
  rewrite run_defer, run_free, Hp, run_if.
  destruct (Decompress o).
  - rewrite run_bind. fold r2. rewrite run_if.
    destruct (is_nil (fst r2)) eqn:Hq; [reflexivity |].
    rewrite run_defer, run_free, Hq. reflexivity.
  - reflexivity.
Qed.

(** ** Buffers and the C heap *)

Lemma remove_fresh (p : Pointer) (w : CHeap) :
  ~ In p w -> remove N.eq_dec p (p :: w) = w.
Proof.
  intros Hp. cbn [remove].
  destruct (N.eq_dec p p) as [_ | Hne]; [| congruence].
  apply notin_remove. exact Hp.
Qed.

Lemma allocates_nil (c : M Pointer) (w : CHeap) :
  allocates c -> is_nil (fst (runState c w)) = true ->
  snd (runState c w) = w.
Proof.
  intros Hc Hn. destruct (Hc w) as [[_ Hw] | [Hf _]]; [exact Hw |].
  rewrite Hn in Hf. discriminate Hf.
Qed.

Lemma allocates_block (c : M Pointer) (w : CHeap) :
  allocates c -> is_nil (fst (runState c w)) = false ->
  ~ In (fst (runState c w)) w /\
  snd (runState c w) = fst (runState c w) :: w.
Proof.
  intros Hc Hn. destruct (Hc w) as [[Hf _] | [_ Hw]]; [| exact Hw].
  rewrite Hn in Hf. discriminate Hf.
Qed.

Lemma fresh_block_above (w : CHeap) (x : N) :
  In x w -> (x < fresh_block w)%N.
Proof.
  unfold fresh_block. induction w as [| y w IH]; cbn [In fold_right].
  - intros [].
  - intros [-> | Hx]; [lia |]. specialize (IH Hx). lia.
Qed.

Lemma C_malloc_allocates : allocates C_malloc.
Proof.
  intros w. right. cbn. repeat split.
  - apply N.eqb_neq. unfold fresh_block. lia.
  - intros Hin. apply fresh_block_above in Hin. lia.
Qed.

Lemma bump_allocating : allocating bump.
Proof.
  constructor; intros; try apply C_malloc_allocates; intros w; reflexivity.
Qed.

Lemma placeholder_allocating : allocating placeholder.
Proof.
  constructor; intros; intros w; try reflexivity; left; split; reflexivity.
Qed.

(** ** Outcomes of the wrappers over a seam that allocates *)

(** X1. Over a seam that allocates, [Encode] ends in one of three ways:
    the error "failed to encode value" with nil bytes, the error
    "compression failed" with nil bytes, or a nil error with the bytes
    [dataToBytes] gave for a non-nil buffer that was live when it was
    read.  Bytes never come with an error, and [dataToBytes] is never
    asked about the nil pointer. *)
Theorem Encode_outcomes (H : Helpers) (v : Value) (opts : list EncodeOptions)
    (w : CHeap) :
  allocating H ->
  fst (runState (Encode v opts) w) = ([], Some "failed to encode value") \/
  fst (runState (Encode v opts) w) = ([], Some "compression failed") \/
  exists (p : Pointer) (w' : CHeap),
    is_nil p = false /\ In p w' /\
    fst (runState (Encode v opts) w) =
      (fst (runState (dataToBytes p) w'), None).
Proof.
  intros [He _ Hc _ _ _].
  rewrite Encode_run.
  destruct (is_nil (fst (runState (encodeValue v) w))) eqn:Hp;
    [left; reflexivity |].
  destruct (allocates_block _ w (He v) Hp) as [_ Hw].
  destruct (Compress (EncodeOptions_of opts)).
  - match goal with
    | |- context [if is_nil (fst ?r) then _ else _] =>
        destruct (is_nil (fst r)) eqn:Hq
    end.
    + right; left; reflexivity.
    + right; right.
      destruct (allocates_block _ _ (Hc _ _ _) Hq) as [_ Hw2].
      eexists; eexists. split; [exact Hq | split; [| reflexivity]].
      rewrite Hw2. left; reflexivity.
  - right; right. eexists; eexists.
    split; [exact Hp | split; [| reflexivity]].
    rewrite Hw. left; reflexivity.
Qed.

Lemma Encode_outcomes_witness :
  allocating bump /\
  (fst (runState (Encode (H := bump) people [zlib6]) [3%N]) =
     ([], Some "failed to encode value") \/
   fst (runState (Encode (H := bump) people [zlib6]) [3%N]) =
     ([], Some "compression failed") \/
   exists (p : Pointer) (w' : CHeap),
     is_nil p = false /\ In p w' /\
     fst (runState (Encode (H := bump) people [zlib6]) [3%N]) =
       (fst (runState (dataToBytes (Helpers := bump) p) w'), None)).
Proof.
  split; [exact bump_allocating |].
  exact (Encode_outcomes bump people [zlib6] [3%N] bump_allocating).
Defined.

(** X2. Over a seam that allocates, [Decode] ends in one of four ways:
    one of its own three errors ("empty data", "failed to create data
    structure", "decompression failed") with the nil value, or exactly
    what [decodeData] returned for a non-nil buffer that was live when it
    was decoded. *)
Theorem Decode_outcomes (H : Helpers) (data : bytes)
    (opts : list DecodeOptions) (w : CHeap) :
  allocating H ->
  fst (runState (Decode data opts) w) = (VNil, Some "empty data") \/
  fst (runState (Decode data opts) w) =
    (VNil, Some "failed to create data structure") \/
  fst (runState (Decode data opts) w) = (VNil, Some "decompression failed") \/
  exists (p : Pointer) (w' : CHeap),
    is_nil p = false /\ In p w' /\
    fst (runState (Decode data opts) w) = fst (runState (decodeData p) w').
Proof.
  intros [_ Hb _ Hx _ _].
  destruct data as [| b data]; [left; reflexivity |].
  rewrite Decode_run.
  destruct (is_nil (fst (runState (bytesToData (b :: data)) w))) eqn:Hp;
    [right; left; reflexivity |].
  destruct (allocates_block _ w (Hb (b :: data)) Hp) as [_ Hw].
  destruct (Decompress (DecodeOptions_of opts)).
  - match goal with
    | |- context [if is_nil (fst ?r) then _ else _] =>
        destruct (is_nil (fst r)) eqn:Hq
    end.
    + right; right; left; reflexivity.
    + right; right; right.
      destruct (allocates_block _ _ (Hx _) Hq) as [_ Hw2].
      eexists; eexists. split; [exact Hq | split; [| reflexivity]].
      rewrite Hw2. left; reflexivity.
  - right; right; right. eexists; eexists.
    split; [exact Hp | split; [| reflexivity]].
    rewrite Hw. left; reflexivity.
Qed.

Lemma Decode_outcomes_witness :
  allocating bump /\
  (fst (runState (Decode (H := bump) truncated_frame [inflate]) [3%N]) =
     (VNil, Some "empty data") \/
   fst (runState (Decode (H := bump) truncated_frame [inflate]) [3%N]) =
     (VNil, Some "failed to create data structure") \/
   fst (runState (Decode (H := bump) truncated_frame [inflate]) [3%N]) =
     (VNil, Some "decompression failed") \/
   exists (p : Pointer) (w' : CHeap),
     is_nil p = false /\ In p w' /\
     fst (runState (Decode (H := bump) truncated_frame [inflate]) [3%N]) =
       fst (runState (decodeData (Helpers := bump) p) w')).
Proof.
  split; [exact bump_allocating |].
  exact (Decode_outcomes bump truncated_frame [inflate] [3%N]
           bump_allocating).
Defined.

(** X3. Over a seam that allocates, [Encode] succeeds exactly when
    [encodeValue] returns a buffer and, if compression is on,
    [compressData] returns one too; it reports "failed to encode value"
    exactly when [encodeValue] returns nil, and "compression failed"
    exactly when compression is on, [encodeValue] returned a buffer and
    [compressData] returned nil. *)
Theorem Encode_error_conditions (H : Helpers) (v : Value)
    (opts : list EncodeOptions) (w : CHeap) :
  allocating H ->
  let o := EncodeOptions_of opts in
  let encoded := runState (encodeValue v) w in
  let compressed :=
    runState (compressData (fst encoded) (Algorithm o) (Level o))
             (snd encoded) in
  let err := snd (fst (runState (Encode v opts) w)) in
  (err = None <->
     is_nil (fst encoded) = false /\
     (Compress o = false \/ is_nil (fst compressed) = false)) /\
  (err = Some "failed to encode value" <-> is_nil (fst encoded) = true) /\
  (err = Some "compression failed" <->
     is_nil (fst encoded) = false /\ Compress o = true /\
     is_nil (fst compressed) = true).
Proof.
  intros _ o encoded compressed err. subst err.
  rewrite Encode_run. fold o. fold encoded. fold compressed.
  destruct (is_nil (fst encoded)); cbn [fst snd].
  - repeat split; intros; try discriminate; try tauto;
      intuition discriminate.
  - destruct (Compress o); [destruct (is_nil (fst compressed)) |];
      cbn [fst snd];
      repeat split; intros; try discriminate; try tauto;
      intuition discriminate.
Qed.

Lemma Encode_error_conditions_witness :
  allocating bump /\
  snd (fst (runState (Encode (H := bump) people [zlib6]) [3%N])) = None.
Proof.
  split; [exact bump_allocating |].
  apply (proj1 (Encode_error_conditions bump people [zlib6] [3%N]
                  bump_allocating)).
  split; [reflexivity | right; reflexivity].
Defined.

(** X5. Over a seam that allocates, on every path out of [Encode],
    failures included, the buffer [encodeValue] returned is not live when
    [Encode] returns; when compression gave a buffer, it is another block
    than the first, so that the two deferred frees never meet on one
    block, and it is not live either when [Encode] returns. *)
Theorem Encode_releases_buffers (H : Helpers) (v : Value)
    (opts : list EncodeOptions) (w : CHeap) :
  let o := EncodeOptions_of opts in
  let encoded := runState (encodeValue v) w in
  let compressed :=
    runState (compressData (fst encoded) (Algorithm o) (Level o))
             (snd encoded) in
  let after := snd (runState (Encode v opts) w) in
  allocating H ->
  is_nil (fst encoded) = false ->
  ~ In (fst encoded) after /\
  (Compress o = true -> is_nil (fst compressed) = false ->
   fst compressed <> fst encoded /\ ~ In (fst compressed) after).
Proof.
  intros o encoded compressed after [He _ Hc _ _ _] Hp. subst after.
  destruct (allocates_block _ w (He v) Hp) as [_ Hw]. fold encoded in Hw.
  rewrite Encode_run. fold o. fold encoded. fold compressed.
  rewrite Hp. split.
  - destruct (Compress o); [destruct (is_nil (fst compressed)) |];
      cbn [snd]; apply remove_In.
  - intros Hon Hq. rewrite Hon, Hq. cbn [snd]. split.
    + destruct (allocates_block _ (snd encoded) (Hc _ _ _) Hq)
        as [Hfresh _].
      fold compressed in Hfresh. rewrite Hw in Hfresh.
      intros Heq. apply Hfresh. left. symmetry. exact Heq.
    + intros Hin. apply in_remove in Hin. destruct Hin as [Hin _].
      revert Hin. apply remove_In.
Qed.

Lemma Encode_releases_buffers_witness :
  allocating bump /\
  is_nil (fst (runState (encodeValue (Helpers := bump) people) [3%N])) = false /\
  ~ In 4%N (snd (runState (Encode (H := bump) people [zlib6]) [3%N])) /\
  5%N <> 4%N /\
  ~ In 5%N (snd (runState (Encode (H := bump) people [zlib6]) [3%N])).
Proof.
  pose proof (Encode_releases_buffers bump people [zlib6] [3%N]
                bump_allocating eq_refl) as [Hp Hq].
  split; [exact bump_allocating | split; [reflexivity | split]].
  - exact Hp.
  - apply Hq; reflexivity.
Defined.

(** X6. Over a seam that allocates, on every path out of [Decode] on
    non-empty data, the buffer [bytesToData] returned is not live when
    [Decode] returns; when decompression gave a buffer, it is another
    block than the first, so that the two deferred frees never meet on
    one block, and it is not live either when [Decode] returns. *)
Theorem Decode_releases_buffers (H : Helpers) (b : Byte.byte) (data : bytes)
    (opts : list DecodeOptions) (w : CHeap) :
  let o := DecodeOptions_of opts in
  let created := runState (bytesToData (b :: data)) w in
  let inflated := runState (decompressData (fst created)) (snd created) in
  let after := snd (runState (Decode (b :: data) opts) w) in
  allocating H ->
  is_nil (fst created) = false ->
  ~ In (fst created) after /\
  (Decompress o = true -> is_nil (fst inflated) = false ->
   fst inflated <> fst created /\ ~ In (fst inflated) after).
Proof.
  intros o created inflated after [_ Hb _ Hx _ _] Hp. subst after.
  destruct (allocates_block _ w (Hb (b :: data)) Hp) as [_ Hw].
  fold created in Hw.
  rewrite Decode_run. fold o. fold created. fold inflated.
  rewrite Hp. split.
  - destruct (Decompress o); [destruct (is_nil (fst inflated)) |];
      cbn [snd]; apply remove_In.
  - intros Hon Hq. rewrite Hon, Hq. cbn [snd]. split.
    + destruct (allocates_block _ (snd created) (Hx _) Hq) as [Hfresh _].
      fold inflated in Hfresh. rewrite Hw in Hfresh.
      intros Heq. apply Hfresh. left. symmetry. exact Heq.
    + intros Hin. apply in_remove in Hin. destruct Hin as [Hin _].
      revert Hin. apply remove_In.
Qed.

Lemma Decode_releases_buffers_witness :
  allocating bump /\
  is_nil (fst (runState (bytesToData (Helpers := bump) truncated_frame)
                 [3%N])) = false /\
  ~ In 4%N (snd (runState (Decode (H := bump) truncated_frame [inflate])
                   [3%N])) /\
  5%N <> 4%N /\
  ~ In 5%N (snd (runState (Decode (H := bump) truncated_frame [inflate])
                   [3%N])).
Proof.
  pose proof (Decode_releases_buffers bump Byte.x05 [] [inflate] [3%N]
                bump_allocating eq_refl) as [Hp Hq].
  split; [exact bump_allocating | split; [reflexivity | split]].
  - exact Hp.
  - apply Hq; reflexivity.
Defined.

(** X7. Over a seam that allocates, [Encode] leaves the C heap exactly as
    it found it, on success and on both failures: every buffer it was
    handed is freed, and nothing else is. *)
Theorem Encode_no_leak (H : Helpers) (v : Value) (opts : list EncodeOptions)
    (w : CHeap) :
  allocating H ->
  snd (runState (Encode v opts) w) = w.
Proof.
  intros [He _ Hc _ Hb _].
  rewrite Encode_run.
  destruct (is_nil (fst (runState (encodeValue v) w))) eqn:Hp; cbn [snd].
  - apply allocates_nil; [apply He | exact Hp].
  - destruct (allocates_block _ w (He v) Hp) as [Hfresh Hw].
    set (o := EncodeOptions_of opts).
    set (r1 := runState (encodeValue v) w) in *.
    destruct (Compress o).
    + set (r2 := runState (compressData (fst r1) (Algorithm o) (Level o))
                   (snd r1)).
      destruct (is_nil (fst r2)) eqn:Hq; cbn [snd].
      * unfold r2. rewrite (allocates_nil _ _ (Hc _ _ _) Hq), Hw.
        apply remove_fresh, Hfresh.
      * destruct (allocates_block _ (snd r1) (Hc _ _ _) Hq) as [Hfresh2 Hw2].
        fold r2 in Hfresh2, Hw2.
        rewrite Hb, Hw2, (remove_fresh _ _ Hfresh2), Hw.
        apply remove_fresh, Hfresh.
    + cbn [snd]. rewrite Hb, Hw. apply remove_fresh, Hfresh.
Qed.

Lemma Encode_no_leak_witness :
  allocating bump /\
  snd (runState (Encode (H := bump) people [zlib6]) [3%N]) = [3%N] /\
  snd (runState (Encode (H := bump) people []) [3%N]) = [3%N].
Proof.
  split; [exact bump_allocating | split].
  - apply (Encode_no_leak bump people [zlib6] [3%N]), bump_allocating.
  - apply (Encode_no_leak bump people [] [3%N]), bump_allocating.
Defined.

(** X8. Over a seam that allocates, [Decode] leaves the C heap exactly as
    it found it, whatever the bytes and the options, on success and on
    every failure. *)
Theorem Decode_no_leak (H : Helpers) (data : bytes)
    (opts : list DecodeOptions) (w : CHeap) :
  allocating H ->
  snd (runState (Decode data opts) w) = w.
Proof.
  intros [_ Hb _ Hx _ Hd].
  destruct data as [| b data]; [reflexivity |].
  rewrite Decode_run.
  destruct (is_nil (fst (runState (bytesToData (b :: data)) w))) eqn:Hp;
    cbn [snd].
  - apply allocates_nil; [apply Hb | exact Hp].
  - destruct (allocates_block _ w (Hb (b :: data)) Hp) as [Hfresh Hw].
    set (o := DecodeOptions_of opts).
    set (r1 := runState (bytesToData (b :: data)) w) in *.
    destruct (Decompress o).
    + set (r2 := runState (decompressData (fst r1)) (snd r1)).
      destruct (is_nil (fst r2)) eqn:Hq; cbn [snd].
      * unfold r2. rewrite (allocates_nil _ _ (Hx _) Hq), Hw.
        apply remove_fresh, Hfresh.
      * destruct (allocates_block _ (snd r1) (Hx _) Hq) as [Hfresh2 Hw2].
        fold r2 in Hfresh2, Hw2.
        rewrite Hd, Hw2, (remove_fresh _ _ Hfresh2), Hw.
        apply remove_fresh, Hfresh.
    + cbn [snd]. rewrite Hd, Hw. apply remove_fresh, Hfresh.
Qed.

Lemma Decode_no_leak_witness :
  allocating bump /\
  snd (runState (Decode (H := bump) truncated_frame [inflate]) [3%N]) = [3%N].
Proof.
  split; [exact bump_allocating |].
  apply (Decode_no_leak bump truncated_frame [inflate] [3%N]), bump_allocating.
Defined.

(** X9. Over a seam that allocates, a successful [Encode] returns the
    bytes [dataToBytes] read from the last buffer obtained (the compressed
    one when compression is on), and at the time of that read both that
    buffer and the one from [encodeValue] are still live: the deferred
    frees come after the read. *)
Theorem Encode_reads_live_buffer (H : Helpers) (v : Value)
    (opts : list EncodeOptions) (w : CHeap) :
  allocating H ->
  snd (fst (runState (Encode v opts) w)) = None ->
  let o := EncodeOptions_of opts in
  let encoded := runState (encodeValue v) w in
  let compressed :=
    runState (compressData (fst encoded) (Algorithm o) (Level o))
             (snd encoded) in
  let buf := if Compress o then compressed else encoded in
  fst (fst (runState (Encode v opts) w)) =
    fst (runState (dataToBytes (fst buf)) (snd buf)) /\
  In (fst buf) (snd buf) /\
  In (fst encoded) (snd buf).
Proof.
  intros [He _ Hc _ _ _] Hok o encoded compressed buf.
  rewrite Encode_run in Hok |- *.
  fold o in Hok |- *. fold encoded in Hok |- *. fold compressed in Hok |- *.
  destruct (is_nil (fst encoded)) eqn:Hp; [discriminate Hok |].
  destruct (allocates_block _ w (He v) Hp) as [_ Hw]. fold encoded in Hw.
  subst buf. destruct (Compress o).
  - destruct (is_nil (fst compressed)) eqn:Hq; [discriminate Hok |].
    destruct (allocates_block _ (snd encoded) (Hc _ _ _) Hq) as [_ Hw2].
    fold compressed in Hw2.
    split; [reflexivity |]. rewrite Hw2, Hw. cbn [In]. auto.
  - split; [reflexivity |]. rewrite Hw. cbn [In]. auto.
Qed.

Lemma Encode_reads_live_buffer_witness :
  allocating bump /\
  snd (fst (runState (Encode (H := bump) people [zlib6]) [3%N])) = None /\
  fst (fst (runState (Encode (H := bump) people [zlib6]) [3%N])) =
    fst (runState (dataToBytes (Helpers := bump) 5%N) [5%N; 4%N; 3%N]) /\
  In 5%N [5%N; 4%N; 3%N] /\
  In 4%N [5%N; 4%N; 3%N].
Proof.
  split; [exact bump_allocating | split; [reflexivity |]].
  exact (Encode_reads_live_buffer bump people [zlib6] [3%N]
           bump_allocating eq_refl).
Defined.

(** X10. Over a seam that allocates, when [Decode] gets its buffers it
    returns exactly what [decodeData] returns for the last buffer obtained
    (the decompressed one when decompression is on), value and error
    alike, and at the time of that call both that buffer and the one from
    [bytesToData] are still live. *)
Theorem Decode_decodes_live_buffer (H : Helpers) (b : Byte.byte)
    (data : bytes) (opts : list DecodeOptions) (w : CHeap) :
  let o := DecodeOptions_of opts in
  let created := runState (bytesToData (b :: data)) w in
  let inflated := runState (decompressData (fst created)) (snd created) in
  let buf := if Decompress o then inflated else created in
  allocating H ->
  is_nil (fst created) = false ->
  is_nil (fst buf) = false ->
  fst (runState (Decode (b :: data) opts) w) =
    fst (runState (decodeData (fst buf)) (snd buf)) /\
  In (fst buf) (snd buf) /\
  In (fst created) (snd buf).
Proof.
  intros o created inflated buf [_ Hb _ Hx _ _] Hp Hq.
  rewrite Decode_run. fold o. fold created. fold inflated.
  rewrite Hp.
  destruct (allocates_block _ w (Hb (b :: data)) Hp) as [_ Hw].
  fold created in Hw.
  subst buf. destruct (Decompress o).
  - rewrite Hq.
    destruct (allocates_block _ (snd created) (Hx _) Hq) as [_ Hw2].
    fold inflated in Hw2.
    split; [reflexivity |]. rewrite Hw2, Hw. cbn [In]. auto.
  - split; [reflexivity |]. rewrite Hw. cbn [In]. auto.
Qed.

Lemma Decode_decodes_live_buffer_witness :
  allocating bump /\
  fst (runState (Decode (H := bump) truncated_frame [inflate]) [3%N]) =
    (VInt 5, None) /\
  In 5%N [5%N; 4%N; 3%N] /\
  In 4%N [5%N; 4%N; 3%N].
Proof.
  split; [exact bump_allocating |].
  exact (Decode_decodes_live_buffer bump Byte.x05 [] [inflate] [3%N]
           bump_allocating eq_refl eq_refl).
Defined.

(** ** Options that are off *)

(** X11. When compression is not requested, and so when [Encode] is
    called without options, [compressData] plays no part: replacing it by
    any other function leaves [Encode] the same computation. *)
Theorem Encode_without_Compress (H : Helpers)
    (c : Pointer -> CompressionAlgorithm -> Z -> M Pointer)
    (v : Value) (opts : list EncodeOptions) :
  Compress (EncodeOptions_of opts) = false ->
  Encode (H := with_compressData H c) v opts = Encode (H := H) v opts.
Proof.
  intros Hoff. unfold Encode. fold (EncodeOptions_of opts).
  rewrite Hoff. reflexivity.
Qed.

Lemma Encode_without_Compress_witness :
  Compress (EncodeOptions_of []) = false /\
  Encode (H := with_compressData bump (fun _ _ _ => ret nil_ptr)) people [] =
    Encode (H := bump) people [].
Proof.
  split; [reflexivity |].
  apply (Encode_without_Compress bump (fun _ _ _ => ret nil_ptr) people []).
  reflexivity.
Defined.

(** X12. When decompression is not requested, and so when [Decode] is
    called without options, [decompressData] plays no part: replacing it
    by any other function leaves [Decode] the same computation. *)
Theorem Decode_without_Decompress (H : Helpers) (c : Pointer -> M Pointer)
    (data : bytes) (opts : list DecodeOptions) :
  Decompress (DecodeOptions_of opts) = false ->
  Decode (H := with_decompressData H c) data opts = Decode (H := H) data opts.
Proof.
  intros Hoff. unfold Decode. fold (DecodeOptions_of opts).
  rewrite Hoff. reflexivity.
Qed.

Lemma Decode_without_Decompress_witness :
  Decompress (DecodeOptions_of []) = false /\
  Decode (H := with_decompressData bump (fun _ => ret nil_ptr))
    truncated_frame [] =
  Decode (H := bump) truncated_frame [].
Proof.
  split; [reflexivity |].
  apply (Decode_without_Decompress bump (fun _ => ret nil_ptr)
           truncated_frame []).
  reflexivity.
Defined.

(** X13. [Decode] called without options is [Decode] with
    [{Decompress: false}]; called with several, it is [Decode] with the
    first alone; and the flag is acted upon: there is a seam under which
    the same bytes decode differently with the flag on and off. *)
Theorem Decode_options_defaulting {H : Helpers} (data : bytes) :
  Decode data [] = Decode data [{| Decompress := false |}] /\
  (forall (o : DecodeOptions) (rest : list DecodeOptions),
     Decode data (o :: rest) = Decode data [o]) /\
  (exists H' : Helpers,
     Decode (H := H') truncated_frame [{| Decompress := true |}] <>
     Decode (H := H') truncated_frame [{| Decompress := false |}]).
Proof.
  split; [reflexivity | split; [reflexivity |]].
  exists bump. intro Heq.
  apply (f_equal (fun c => fst (fst (runState c [])))) in Heq.
  discriminate Heq.
Qed.

(** ** The streaming objects under arbitrary use *)

Lemma encoder_run_eq (cs : list encoder_call) (s : StreamEncoder.t) :
  encoder_run s cs =
  (map (fun c => match c with
                 | CallFlush => (Some [], None)
                 | _ => (None, None)
                 end) cs, s).
Proof.
  induction cs as [| c cs IH]; cbn [encoder_run map].
  - reflexivity.
  - destruct c; cbn; rewrite IH; reflexivity.
Qed.

Lemma decoder_run_eq (cs : list decoder_call) (d : StreamDecoder.t) :
  decoder_run d cs =
  (map (fun c => match c with
                 | CallDecode => (Some VNil, None)
                 | CallDecoderClose => (None, None)
                 end) cs, d).
Proof.
  induction cs as [| c cs IH]; cbn [decoder_run map].
  - reflexivity.
  - destruct c; cbn; rewrite IH; reflexivity.
Qed.

(** X15. Whatever calls are made on a [StreamEncoder], in whatever order
    ([Encode] of any value, [Flush], [Close]), no call returns an error,
    every [Flush] returns no bytes, and the encoder is left as it was: the
    values passed to [Encode] leave no trace. *)
Theorem encoder_inert (s : StreamEncoder.t) (cs : list encoder_call) :
  snd (encoder_run s cs) = s /\
  Forall (fun r => snd r = None /\ (fst r = None \/ fst r = Some []))
    (fst (encoder_run s cs)).
Proof.
  rewrite encoder_run_eq. cbn [fst snd]. split; [reflexivity |].
  induction cs as [| c cs IH]; cbn [map]; constructor; [| exact IH].
  destruct c; cbn [fst snd]; auto.
Qed.

(** X16. The bytes a [StreamDecoder] is made from have no influence on
    it: under any sequence of [Decode] and [Close] calls, two decoders
    made from any two byte slices return the same results, every [Decode]
    returning the nil value with a nil error, and neither decoder
    changes. *)
Theorem decoder_ignores_input (data1 data2 : bytes)
    (cs : list decoder_call) :
  fst (decoder_run (StreamDecoder.New data1) cs) =
    fst (decoder_run (StreamDecoder.New data2) cs) /\
  snd (decoder_run (StreamDecoder.New data1) cs) = StreamDecoder.New data1 /\
  Forall (fun r => snd r = None /\ (fst r = None \/ fst r = Some VNil))
    (fst (decoder_run (StreamDecoder.New data1) cs)).
Proof.
  rewrite !decoder_run_eq. cbn [fst snd].
  split; [reflexivity | split; [reflexivity |]].
  induction cs as [| c cs IH]; cbn [map]; constructor; [| exact IH].
  destruct c; cbn [fst snd]; auto.
Qed.
